(** * minerva-hub: tenant-scoped access control

    A shallow embedding of the access layer of the CMS configuration:
    - [Auth]    : src/lib/auth.ts        ([isSuperAdmin], [getTenantIds])
    - [Tenants] : collections/Tenants.ts ([readTenantAccess] and the
                  role-gated predicates)
    - [Users]   : collections/Users.ts   ([tenantScopedAccess],
                  [selfOrSuperAccess], the field guards and the
                  [beforeChange] hook)
    - [LegacyTenants], [LegacyUsers] : the older per-collection copies of
      [isSuperAdmin] that test [Array.isArray] first.

    TypeScript types are erased at run time and the code reads the user
    through unchecked casts ([user as AuthUser], [tenant?: unknown],
    [user: any]), so the user snapshot, the membership entries and the
    mutation payload are modelled as untyped JavaScript data.  A call of a
    method that the receiver does not have is the only way this code can
    fail; it is modelled by the [TypeError] result. *)

From stdpp Require Import gmap strings list fin_maps pretty.

Set Warnings "-register-all".

(** ** JavaScript data *)

(** Plain data as it arrives in a decoded session token or a request body:
    no functions, no accessors, no prototypes of its own.  Numbers are kept
    as integers; the code only ever tests them for truthiness.  An object
    is a finite map from keys to values: the code reads, writes and copies
    fields by key, and nothing in it depends on their order. *)
Inductive value : Type :=
  | VUndefined
  | VNull
  | VBool (b : bool)
  | VNum (n : Z)
  | VStr (s : string)
  | VArr (l : list value)
  | VObj (o : gmap string value).

(** The outcome of evaluating an expression: a value, or a thrown
    [TypeError]. *)
Inductive res (A : Type) : Type :=
  | Ok (a : A)
  | TypeError.
Arguments Ok {A} a.
Arguments TypeError {A}.

#[global] Instance res_ret : MRet res := @Ok.
#[global] Instance res_bind : MBind res := λ A B f m,
  match m with Ok a => f a | TypeError => TypeError end.

Module JS.

(** [Boolean(v)], [!!v] *)
Definition truthy (v : value) : bool :=
  match v with
  | VUndefined | VNull => false
  | VBool b => b
  | VNum n => negb (n =? 0)%Z
  | VStr s => negb (String.eqb s EmptyString)
  | VArr _ | VObj _ => true
  end.

(** [v === undefined || v === null] *)
Definition nullish (v : value) : bool :=
  match v with VUndefined | VNull => true | _ => false end.

(** [typeof v === 'string'] *)
Definition is_string (v : value) : bool :=
  match v with VStr _ => true | _ => false end.

(** [typeof v === 'object' && v !== null] *)
Definition is_object (v : value) : bool :=
  match v with VArr _ | VObj _ => true | _ => false end.

(** [Array.isArray(v)] *)
Definition is_array (v : value) : bool :=
  match v with VArr _ => true | _ => false end.

(** [v === k] for a string literal [k] (also SameValueZero with [k]). *)
Definition is_str (k : string) (v : value) : bool :=
  match v with VStr s => String.eqb s k | _ => false end.

(** [k in v] for a receiver that passed [is_object].  The keys the code
    asks for are data keys, never an index or [length]. *)
Definition has_key (v : value) (k : string) : bool :=
  match v with VObj o => bool_decide (is_Some (o !! k)) | _ => false end.

(** [v.k] on a receiver that is neither [undefined] nor [null].  The keys
    the code reads ([roles], [tenants], [id], [value], [tenant]) are data
    keys: primitives and arrays do not have them. *)
Definition prop (v : value) (k : string) : value :=
  match v with VObj o => default VUndefined (o !! k) | _ => VUndefined end.

(** [v.k] *)
Definition get (v : value) (k : string) : res value :=
  if nullish v then TypeError else Ok (prop v k).

(** [v?.k] *)
Definition get_opt (v : value) (k : string) : value :=
  if nullish v then VUndefined else prop v k.

(** [a || b] *)
Definition or_else (a b : value) : value := if truthy a then a else b.

(** [a ?? b] *)
Definition coalesce (a b : value) : value := if nullish a then b else a.

(** [s.includes(sub)] on strings: substring test. *)
Fixpoint str_includes (sub s : string) : bool :=
  String.prefix sub s ||
  match s with
  | EmptyString => false
  | String _ s' => str_includes sub s'
  end.

(** [recv.includes(k)] for a string literal [k]: [Array.prototype.includes]
    on arrays, [String.prototype.includes] on strings; every other
    receiver has no such method. *)
Definition includes (recv : value) (k : string) : res bool :=
  match recv with
  | VArr l => Ok (existsb (is_str k) l)
  | VStr s => Ok (str_includes k s)
  | _ => TypeError
  end.

(** [recv?.includes(k)] *)
Definition includes_opt (recv : value) (k : string) : res value :=
  if nullish recv then Ok VUndefined
  else b ← includes recv k; Ok (VBool b).

(** [{ k: v }] *)
Definition obj1 (k : string) (v : value) : value := VObj {[ k := v ]}.

(** The own enumerable properties copied by [{ ...v }].  A string is
    copied one key per character, which is what JavaScript does for ASCII
    text; the payloads the framework hands to the hook are objects. *)
Definition spread (v : value) : gmap string value :=
  match v with
  | VObj o => o
  | VArr l => list_to_map (imap (λ i x, (pretty i, x)) l)
  | VStr s =>
      list_to_map
        (imap (λ i c, (pretty i, VStr (String c EmptyString)))
              (String.list_ascii_of_string s))
  | _ => ∅
  end.

End JS.
Import JS.

(** ** lib/auth.ts *)
Module Auth.

(** [Boolean(user?.roles?.includes('super-admin'))] *)
Definition isSuperAdmin (user : value) : res bool :=
  r ← includes_opt (get_opt user "roles") "super-admin";
  Ok (truthy r).

(** The callback of [user.tenants.map(...)]. *)
Definition tenantId (tenant : value) : value :=
  if is_string tenant then tenant
  else
    let fallback :=
      or_else (get_opt tenant "id") (get_opt tenant "value") in
    if is_object tenant && has_key tenant "tenant" then
      let ref := prop tenant "tenant" in
      if is_string ref then ref
      else if is_object ref then or_else (prop ref "id") (prop ref "value")
      else fallback
    else fallback.

Definition getTenantIds (user : value) : res (list value) :=
  if negb (truthy (get_opt user "tenants")) then Ok []
  else
    match prop user "tenants" with
    | VArr tenants => Ok (filter (λ v, truthy v) (tenantId <$> tenants))
    | _ => TypeError
    end.

End Auth.

(** A predicate that answers with a boolean, as the framework sees it. *)
Definition as_access (r : res bool) : res value := b ← r; Ok (VBool b).

(** [Boolean(user)] as an access answer. *)
Definition authenticated (user : value) : res value := Ok (VBool (truthy user)).

(** ** collections/Tenants.ts *)
Module Tenants.

Definition readTenantAccess (user : value) : res value :=
  sa ← Auth.isSuperAdmin user;
  if (sa : bool) then Ok (VBool true)
  else
    tenantIds ← Auth.getTenantIds user;
    if (length tenantIds =? 0)%nat then Ok (VBool false)
    else Ok (obj1 "id" (obj1 "in" (VArr tenantIds))).

Definition access_create (user : value) : res value :=
  as_access (Auth.isSuperAdmin user).
Definition access_read : value → res value := readTenantAccess.
Definition access_update (user : value) : res value :=
  as_access (Auth.isSuperAdmin user).
Definition access_delete (user : value) : res value :=
  as_access (Auth.isSuperAdmin user).
Definition access_admin (user : value) : res value :=
  as_access (Auth.isSuperAdmin user).

End Tenants.

(** ** collections/Users.ts *)
Module Users.

Definition tenantScopedAccess (user : value) : res value :=
  if negb (truthy user) then Ok (VBool false)
  else
    sa ← Auth.isSuperAdmin user;
    if (sa : bool) then Ok (VBool true)
    else
      tenantIds ← Auth.getTenantIds user;
      let constraints := [obj1 "id" (obj1 "equals" (prop user "id"))] in
      let constraints :=
        if (0 <? length tenantIds)%nat
        then constraints ++ [obj1 "tenants.tenant" (obj1 "in" (VArr tenantIds))]
        else constraints in
      if (length constraints =? 1)%nat
      then Ok (default VUndefined (constraints !! 0%nat))
      else Ok (obj1 "or" (VArr constraints)).

Definition selfOrSuperAccess (user : value) : res value :=
  if negb (truthy user) then Ok (VBool false)
  else
    sa ← Auth.isSuperAdmin user;
    if (sa : bool) then Ok (VBool true)
    else Ok (obj1 "id" (obj1 "equals" (prop user "id"))).

Definition access_admin : value → res value := authenticated.
Definition access_create (user : value) : res value :=
  if negb (truthy user) then Ok (VBool false)
  else
    sa ← Auth.isSuperAdmin user;
    if (sa : bool) then Ok (VBool true)
    else
      r ← includes_opt (prop user "roles") "tenant-admin";
      Ok (coalesce r (VBool false)).
Definition access_read : value → res value := tenantScopedAccess.
Definition access_update : value → res value := selfOrSuperAccess.
Definition access_delete (user : value) : res value :=
  as_access (Auth.isSuperAdmin user).

(** Field-level guard of [roles]. *)
Definition roles_access_update (user : value) : res value :=
  as_access (Auth.isSuperAdmin user).

(** Field-level guards handed to [tenantsArrayField]. *)
Definition arrayFieldAccess_read : value → res value := authenticated.
Definition arrayFieldAccess_update (user : value) : res value :=
  as_access (Auth.isSuperAdmin user).
Definition tenantFieldAccess_read : value → res value := authenticated.
Definition tenantFieldAccess_update (user : value) : res value :=
  as_access (Auth.isSuperAdmin user).

(** [tenantIds.map((id) => ({ tenant: id }))] *)
Definition memberships (tenantIds : list value) : value :=
  VArr ((λ id, obj1 "tenant" id) <$> tenantIds).

(** The [beforeChange] hook; [requester] is [req.user]. *)
Definition beforeChange (data requester : value) (operation : string)
  : res value :=
  if negb (String.eqb operation "create") then Ok data
  else if negb (truthy requester) then Ok data
  else
    sa ← Auth.isSuperAdmin requester;
    if (sa : bool) then Ok data
    else
      tenantIds ← Auth.getTenantIds requester;
      Ok (VObj
            (<["roles" := coalesce (get_opt data "roles")
                                   (VArr [VStr "tenant-admin"])]>
               (<["tenants" := memberships tenantIds]> (spread data)))).

End Users.

(** ** The older per-collection role checks *)

(** [Array.isArray(user?.roles) && user.roles.includes('super-admin')],
    in the earlier Tenants collection. *)
Module LegacyTenants.

Definition isSuperAdmin (user : value) : res bool :=
  if is_array (get_opt user "roles")
  then roles ← get user "roles"; includes roles "super-admin"
  else Ok false.

End LegacyTenants.

(** The same expression, in the earlier Users collection. *)
Module LegacyUsers.

Definition isSuperAdmin (user : value) : res bool :=
  if is_array (get_opt user "roles")
  then roles ← get user "roles"; includes roles "super-admin"
  else Ok false.

End LegacyUsers.

(** ** The predicates as a family *)

(** Collection-level predicates of both collections. *)
Definition collection_access : list (value → res value) :=
  [ Tenants.access_create; Tenants.access_read; Tenants.access_update;
    Tenants.access_delete; Tenants.access_admin;
    Users.access_admin; Users.access_create; Users.access_read;
    Users.access_update; Users.access_delete ].

(** Field-level predicates of the Users collection. *)
Definition field_access : list (value → res value) :=
  [ Users.roles_access_update;
    Users.arrayFieldAccess_read; Users.arrayFieldAccess_update;
    Users.tenantFieldAccess_read; Users.tenantFieldAccess_update ].

Definition access_predicates : list (value → res value) :=
  collection_access ++ field_access.

(** The shape the [AuthUser] interface promises for the two collections the
    code calls methods on: [roles] and [tenants] are each absent or an
    array.  Nothing is asked of the entries. *)
Definition conforms (user : value) : bool :=
  let roles := get_opt user "roles" in
  let tenants := get_opt user "tenants" in
  (nullish roles || is_array roles) && (nullish tenants || is_array tenants).

(** The shape the [AuthUser] interface promises for one membership entry:
    wherever the resolver looks for an identifier ([id] or [value] of the
    entry, or of the object under its [tenant] key) it finds a string or
    nothing. *)
Definition str_or_absent (v : value) : bool :=
  match v with VUndefined | VStr _ => true | _ => false end.

Definition typed_ref (ref : value) : bool :=
  str_or_absent (prop ref "id") && str_or_absent (prop ref "value").

Definition typed_entry (entry : value) : bool :=
  match entry with
  | VObj o =>
      typed_ref entry &&
      match o !! "tenant" with
      | Some (VObj r) => typed_ref (VObj r)
      | _ => true
      end
  | _ => true
  end.

(** ** Sample data *)
Module Sample.

(** The membership list of the resolver example: every shape the
    resolver accepts, and two entries that resolve to nothing. *)
Definition memberships : list value :=
  [ VStr "t1";
    obj1 "id" (VStr "t2");
    obj1 "value" (VStr "t3");
    obj1 "tenant" (VStr "t4");
    obj1 "tenant" (obj1 "id" (VStr "t5"));
    obj1 "tenant" (obj1 "value" (VStr "t6"));
    VObj ∅;
    obj1 "tenant" (VObj ∅) ].

(** Entries that resolve to a falsy value. *)
Definition empty_memberships : list value :=
  [ VObj ∅; obj1 "id" (VStr EmptyString); obj1 "id" VNull; obj1 "value" VNull;
    VStr EmptyString; VNull; VUndefined; obj1 "tenant" VNull;
    obj1 "tenant" (obj1 "id" (VStr EmptyString)); VNum 7; VArr [VStr "t9"] ].

(** A tenant-admin of tenants t1 and t2. *)
Definition tenant_admin : value :=
  VObj (<["id" := VStr "u1"]>
       (<["roles" := VArr [VStr "tenant-admin"]]>
       {[ "tenants" := VArr [obj1 "tenant" (VStr "t1");
                             obj1 "tenant" (VStr "t2")] ]})).

(** An authenticated user with neither role nor membership. *)
Definition bare_user : value := obj1 "id" (VStr "u2").

Definition super_admin : value :=
  VObj (<["id" := VStr "root"]> {[ "roles" := VArr [VStr "super-admin"] ]}).

(** A creation payload that tries to pick its own tenants and roles. *)
Definition payload : value :=
  VObj (<["email" := VStr "new@example.org"]>
       (<["roles" := VArr [VStr "super-admin"]]>
       {[ "tenants" := VArr [obj1 "tenant" (VStr "t9")] ]})).

(** Snapshots outside the [AuthUser] shape. *)
Definition roles_as_string : value := obj1 "roles" (VStr "super-admin").
Definition roles_as_number : value := obj1 "roles" (VNum 42).
Definition tenants_as_string : value := obj1 "tenants" (VStr "t1").

(** The same tenant listed twice. *)
Definition twice : value := obj1 "tenants" (VArr [VStr "t1"; VStr "t1"]).

End Sample.

(** ** The earlier collections *)

(** The access tables of the earlier Tenants and Users collections, which
    use the per-collection role checks. *)
Module LegacyCollections.

Definition tenants_access_create (user : value) : res value :=
  as_access (LegacyTenants.isSuperAdmin user).
Definition tenants_access_update (user : value) : res value :=
  as_access (LegacyTenants.isSuperAdmin user).
Definition tenants_access_delete (user : value) : res value :=
  as_access (LegacyTenants.isSuperAdmin user).
Definition tenants_access_read : value → res value := authenticated.

(** Field-level guards of [roles] in the earlier Users collection. *)
Definition users_roles_access_create (user : value) : res value :=
  as_access (LegacyUsers.isSuperAdmin user).
Definition users_roles_access_update (user : value) : res value :=
  as_access (LegacyUsers.isSuperAdmin user).

End LegacyCollections.

Definition legacy_predicates : list (value → res value) :=
  [ LegacyCollections.tenants_access_create;
    LegacyCollections.tenants_access_update;
    LegacyCollections.tenants_access_delete;
    LegacyCollections.tenants_access_read;
    LegacyCollections.users_roles_access_create;
    LegacyCollections.users_roles_access_update ].

(** The predicates of the current collections other than the ones that
    open to every authenticated user ([Users.access_admin], the field
    reads) or to tenant-admins ([Users.access_create]). *)
Definition guarded_predicates : list (value → res value) :=
  [ Tenants.access_create; Tenants.access_read; Tenants.access_update;
    Tenants.access_delete; Tenants.access_admin;
    Users.access_read; Users.access_update; Users.access_delete;
    Users.roles_access_update; Users.arrayFieldAccess_update;
    Users.tenantFieldAccess_update ].

(** ** Proof automation *)

(** Unfold every predicate down to the role check and the resolver. *)
Ltac unfold_access :=
  unfold Tenants.access_create, Tenants.access_read, Tenants.access_update,
    Tenants.access_delete, Tenants.access_admin, Tenants.readTenantAccess,
    Users.access_admin, Users.access_create, Users.access_read,
    Users.access_update, Users.access_delete, Users.tenantScopedAccess,
    Users.selfOrSuperAccess, Users.roles_access_update,
    Users.arrayFieldAccess_read, Users.arrayFieldAccess_update,
    Users.tenantFieldAccess_read, Users.tenantFieldAccess_update,
    authenticated, as_access.

(** Split membership in [access_predicates] into one goal per predicate. *)
Ltac each_predicate H :=
  unfold access_predicates, collection_access, field_access in H;
  simpl in H;
  repeat (apply elem_of_cons in H as [-> | H]);
  try (by apply not_elem_of_nil in H).

(** * Properties *)

(** ** Basic facts about the data operations *)

Lemma prop_array_is_object user k l :
  prop user k = VArr l → ∃ o, user = VObj o.
Proof. destruct user; simpl; try discriminate; eauto. Qed.

Lemma get_opt_object o k : get_opt (VObj o) k = prop (VObj o) k.
Proof. reflexivity. Qed.

Lemma get_opt_nullish user k : nullish user = true → get_opt user k = VUndefined.
Proof. unfold get_opt. by intros ->. Qed.

Lemma get_opt_falsy user k : truthy user = false → get_opt user k = VUndefined.
Proof. destruct user; simpl; try done. Qed.

Lemma existsb_is_str k (l : list value) :
  existsb (is_str k) l = true ↔ VStr k ∈ l.
Proof.
  rewrite existsb_exists. split.
  - intros (v & Hin & Hv). destruct v; simpl in Hv; try discriminate.
    apply String.eqb_eq in Hv as ->. by apply list_elem_of_In.
  - intros Hin. exists (VStr k). split; [by apply list_elem_of_In|].
    simpl. apply String.eqb_refl.
Qed.

(** ** The role check *)

Lemma isSuperAdmin_roles_array user roles :
  get_opt user "roles" = VArr roles →
  Auth.isSuperAdmin user = Ok (existsb (is_str "super-admin") roles).
Proof. unfold Auth.isSuperAdmin. by intros ->. Qed.

Lemma isSuperAdmin_roles_nullish user :
  nullish (get_opt user "roles") = true → Auth.isSuperAdmin user = Ok false.
Proof. unfold Auth.isSuperAdmin, includes_opt. by intros ->. Qed.

Lemma isSuperAdmin_falsy user :
  truthy user = false → Auth.isSuperAdmin user = Ok false.
Proof.
  intros H. apply isSuperAdmin_roles_nullish. by rewrite get_opt_falsy.
Qed.

Lemma isSuperAdmin_has_role user roles :
  prop user "roles" = VArr roles → VStr "super-admin" ∈ roles →
  Auth.isSuperAdmin user = Ok true.
Proof.
  intros Hr Hin. destruct (prop_array_is_object _ _ _ Hr) as [o ->].
  rewrite (isSuperAdmin_roles_array _ roles) by done.
  f_equal. by apply existsb_is_str.
Qed.

(** ** The resolver *)

Lemma getTenantIds_falsy user :
  truthy user = false → Auth.getTenantIds user = Ok [].
Proof. intros H. unfold Auth.getTenantIds. by rewrite get_opt_falsy. Qed.

Lemma getTenantIds_no_tenants user :
  truthy (get_opt user "tenants") = false → Auth.getTenantIds user = Ok [].
Proof. unfold Auth.getTenantIds. by intros ->. Qed.

Lemma getTenantIds_array user tenants :
  get_opt user "tenants" = VArr tenants →
  Auth.getTenantIds user
  = Ok (filter (λ v, truthy v) (Auth.tenantId <$> tenants)).
Proof.
  intros H. unfold Auth.getTenantIds. rewrite H. simpl.
  assert (prop user "tenants" = VArr tenants) as ->; [|done].
  by destruct user.
Qed.

Lemma getTenantIds_truthy user ids v :
  Auth.getTenantIds user = Ok ids → v ∈ ids → truthy v = true.
Proof.
  unfold Auth.getTenantIds.
  destruct (negb _); [intros [= <-] Hin; by apply not_elem_of_nil in Hin|].
  destruct (prop user "tenants"); try discriminate.
  intros [= <-] Hin. apply list_elem_of_filter in Hin as [Hv _].
  by apply Is_true_true.
Qed.

(** ** Super-admin override *)

(** C1. A user whose role set contains [super-admin] is granted everything:
    each collection-level predicate of Tenants (create, read, update,
    delete, admin) and of Users (admin, create, read, update, delete), and
    each field-level guard, answers [true], whatever the tenant membership
    of the user is. *)
Theorem super_admin_grants_all (user : value) (roles : list value) :
  prop user "roles" = VArr roles →
  VStr "super-admin" ∈ roles →
  ∀ p, p ∈ access_predicates → p user = Ok (VBool true).
Proof.
  intros Hr Hin p Hp.
  pose proof (isSuperAdmin_has_role _ _ Hr Hin) as Hsa.
  destruct (prop_array_is_object _ _ _ Hr) as [o ->].
  each_predicate Hp; unfold_access;
    rewrite ?Hsa; reflexivity.
Qed.

Lemma super_admin_grants_all_witness :
  Forall
    (λ p : value → res value,
       p (VObj {[ "roles" := VArr [VStr "tenant-admin"; VStr "super-admin"] ]})
       = Ok (VBool true))
    access_predicates.
Proof.
  apply Forall_forall.
  apply (super_admin_grants_all _ [VStr "tenant-admin"; VStr "super-admin"]).
  - reflexivity.
  - apply elem_of_cons. right. apply elem_of_cons. by left.
Defined.

(** ** Read predicates *)

(** C3. The User-read predicate denies when no user is authenticated,
    grants everything to a super-admin, and otherwise answers with a
    filter: when the resolved tenant set is non-empty, the [or] of "own
    identifier equals the user's id" and "membership tenant in the resolved
    set"; when it is empty, the own-identifier constraint alone, with no
    enclosing [or]. *)
Theorem user_read_access (user : value) :
  (truthy user = false → Users.access_read user = Ok (VBool false)) ∧
  (truthy user = true → Auth.isSuperAdmin user = Ok true →
   Users.access_read user = Ok (VBool true)) ∧
  (∀ ids, truthy user = true → Auth.isSuperAdmin user = Ok false →
     Auth.getTenantIds user = Ok ids → ids ≠ [] →
     Users.access_read user
     = Ok (obj1 "or"
             (VArr [ obj1 "id" (obj1 "equals" (prop user "id"));
                     obj1 "tenants.tenant" (obj1 "in" (VArr ids)) ]))) ∧
  (truthy user = true → Auth.isSuperAdmin user = Ok false →
   Auth.getTenantIds user = Ok [] →
   Users.access_read user = Ok (obj1 "id" (obj1 "equals" (prop user "id")))).
Proof.
  unfold Users.access_read, Users.tenantScopedAccess.
  repeat split.
  - by intros ->.
  - by intros -> ->.
  - intros ids -> -> -> Hne. simpl. by destruct ids.
  - by intros -> -> ->.
Qed.

(** C4. The Tenant-read predicate grants everything to a super-admin;
    otherwise it answers with the filter "tenant identifier in the resolved
    set" when that set is non-empty, and denies when it is empty, which
    covers an absent user and a user without tenant membership. *)
Theorem tenant_read_access (user : value) :
  (Auth.isSuperAdmin user = Ok true →
   Tenants.access_read user = Ok (VBool true)) ∧
  (∀ ids, Auth.isSuperAdmin user = Ok false →
     Auth.getTenantIds user = Ok ids → ids ≠ [] →
     Tenants.access_read user = Ok (obj1 "id" (obj1 "in" (VArr ids)))) ∧
  (Auth.isSuperAdmin user = Ok false → Auth.getTenantIds user = Ok [] →
   Tenants.access_read user = Ok (VBool false)) ∧
  (nullish user = true → Tenants.access_read user = Ok (VBool false)) ∧
  (Auth.isSuperAdmin user = Ok false →
   truthy (get_opt user "tenants") = false ∨ get_opt user "tenants" = VArr [] →
   Tenants.access_read user = Ok (VBool false)).
Proof.
  unfold Tenants.access_read, Tenants.readTenantAccess.
  repeat split.
  - by intros ->.
  - intros ids -> -> Hne. simpl. by destruct ids.
  - by intros -> ->.
  - by destruct user.
  - intros -> [H | H].
    + by rewrite getTenantIds_no_tenants.
    + by rewrite (getTenantIds_array _ []).
Qed.

(** ** Role-field guard *)

(** C7. The field-level update guard of [roles] answers [true] only for
    super-admins.  For an authenticated user who is not a super-admin it
    answers [false], while the record-level update predicate answers, for
    the same user, with the filter on the user's own identifier instead of
    a denial. *)
Theorem roles_field_guard (user : value) :
  (Users.roles_access_update user = Ok (VBool true) →
   Auth.isSuperAdmin user = Ok true) ∧
  (truthy user = true → Auth.isSuperAdmin user = Ok false →
   Users.roles_access_update user = Ok (VBool false) ∧
   Users.access_update user = Ok (obj1 "id" (obj1 "equals" (prop user "id"))) ∧
   Users.access_update user ≠ Ok (VBool false)).
Proof.
  unfold Users.roles_access_update, Users.access_update,
    Users.selfOrSuperAccess, as_access.
  split.
  - destruct (Auth.isSuperAdmin user) as [[]|]; simpl; congruence.
  - intros -> ->. simpl. repeat split. discriminate.
Qed.

(** ** Creation hook *)

Lemma beforeChange_create data requester ids :
  truthy requester = true →
  Auth.isSuperAdmin requester = Ok false →
  Auth.getTenantIds requester = Ok ids →
  Users.beforeChange data requester "create"
  = Ok (VObj (<["roles" := coalesce (get_opt data "roles")
                                    (VArr [VStr "tenant-admin"])]>
                (<["tenants" := Users.memberships ids]> (spread data)))).
Proof. unfold Users.beforeChange. by intros -> -> ->. Qed.

(** C2. On create by an authenticated requester who is not a super-admin,
    the hook answers with a payload whose [tenants] is exactly the
    requester's resolved identifiers, each wrapped as [{tenant: id}],
    whatever [tenants] the inbound payload carried, and whose [roles] is
    the payload's [roles] when present and [['tenant-admin']] otherwise.
    When the requester is absent or a super-admin the payload is returned
    as it came. *)
Theorem beforeChange_inherits_tenants (data requester : value) :
  (∀ ids, truthy requester = true →
     Auth.isSuperAdmin requester = Ok false →
     Auth.getTenantIds requester = Ok ids →
     ∃ out, Users.beforeChange data requester "create" = Ok (VObj out) ∧
       out !! "tenants" = Some (VArr ((λ id, obj1 "tenant" id) <$> ids)) ∧
       (nullish (get_opt data "roles") = true →
        out !! "roles" = Some (VArr [VStr "tenant-admin"])) ∧
       (nullish (get_opt data "roles") = false →
        out !! "roles" = Some (prop data "roles"))) ∧
  (truthy requester = false →
   Users.beforeChange data requester "create" = Ok data) ∧
  (Auth.isSuperAdmin requester = Ok true →
   Users.beforeChange data requester "create" = Ok data).
Proof.
  repeat split.
  - intros ids Ht Hsa Hids. eexists. split.
    + by apply beforeChange_create.
    + split; [|split].
      * rewrite lookup_insert_ne by done. by rewrite lookup_insert_eq.
      * intros Hn. rewrite lookup_insert_eq. unfold coalesce. by rewrite Hn.
      * intros Hn. rewrite lookup_insert_eq. unfold coalesce. rewrite Hn.
        f_equal. unfold get_opt in *. by destruct (nullish data).
  - unfold Users.beforeChange. by intros ->.
  - unfold Users.beforeChange. intros ->. simpl. by destruct (truthy requester).
Qed.

(** C10. On create by an authenticated requester who is not a super-admin,
    every field of the payload other than [tenants] and [roles] reaches
    the output unchanged; on every other operation the hook returns the
    payload as it came, for every requester. *)
Theorem beforeChange_frame (data requester : value) :
  (∀ ids k, truthy requester = true →
     Auth.isSuperAdmin requester = Ok false →
     Auth.getTenantIds requester = Ok ids →
     k ≠ "tenants" → k ≠ "roles" →
     ∃ out, Users.beforeChange data requester "create" = Ok (VObj out) ∧
            out !! k = spread data !! k) ∧
  (∀ operation, operation ≠ "create" →
     Users.beforeChange data requester operation = Ok data).
Proof.
  split.
  - intros ids k Ht Hsa Hids Hk1 Hk2. eexists. split.
    + by apply beforeChange_create.
    + by rewrite !lookup_insert_ne.
  - intros operation Hop. unfold Users.beforeChange.
    apply String.eqb_neq in Hop. by rewrite Hop.
Qed.

(** ** Instances on the sample data *)

Lemma user_read_access_witness :
  Users.access_read VUndefined = Ok (VBool false) ∧
  Users.access_read Sample.super_admin = Ok (VBool true) ∧
  Users.access_read Sample.tenant_admin
  = Ok (obj1 "or"
          (VArr [ obj1 "id" (obj1 "equals" (VStr "u1"));
                  obj1 "tenants.tenant"
                       (obj1 "in" (VArr [VStr "t1"; VStr "t2"])) ])) ∧
  Users.access_read Sample.bare_user
  = Ok (obj1 "id" (obj1 "equals" (VStr "u2"))).
Proof.
  split; [|split; [|split]].
  - destruct (user_read_access VUndefined) as (H & _). apply H. reflexivity.
  - destruct (user_read_access Sample.super_admin) as (_ & H & _).
    apply H; reflexivity.
  - destruct (user_read_access Sample.tenant_admin) as (_ & _ & H & _).
    apply (H [VStr "t1"; VStr "t2"]); [reflexivity..|discriminate].
  - destruct (user_read_access Sample.bare_user) as (_ & _ & _ & H).
    apply H; reflexivity.
Defined.

Lemma tenant_read_access_witness :
  Tenants.access_read Sample.super_admin = Ok (VBool true) ∧
  Tenants.access_read Sample.tenant_admin
  = Ok (obj1 "id" (obj1 "in" (VArr [VStr "t1"; VStr "t2"]))) ∧
  Tenants.access_read Sample.bare_user = Ok (VBool false) ∧
  Tenants.access_read VNull = Ok (VBool false).
Proof.
  split; [|split; [|split]].
  - destruct (tenant_read_access Sample.super_admin) as (H & _).
    apply H; reflexivity.
  - destruct (tenant_read_access Sample.tenant_admin) as (_ & H & _).
    apply (H [VStr "t1"; VStr "t2"]); [reflexivity..|discriminate].
  - destruct (tenant_read_access Sample.bare_user) as (_ & _ & _ & _ & H).
    apply H; [reflexivity|left; reflexivity].
  - destruct (tenant_read_access VNull) as (_ & _ & _ & H & _).
    apply H; reflexivity.
Defined.

Lemma roles_field_guard_witness :
  Auth.isSuperAdmin Sample.super_admin = Ok true ∧
  Users.roles_access_update Sample.tenant_admin = Ok (VBool false) ∧
  Users.access_update Sample.tenant_admin
  = Ok (obj1 "id" (obj1 "equals" (VStr "u1"))) ∧
  Users.access_update Sample.tenant_admin ≠ Ok (VBool false).
Proof.
  split.
  - destruct (roles_field_guard Sample.super_admin) as (H & _).
    apply H. reflexivity.
  - destruct (roles_field_guard Sample.tenant_admin) as (_ & H).
    apply H; reflexivity.
Defined.

Lemma beforeChange_inherits_tenants_witness :
  (∃ out, Users.beforeChange (VObj ∅) Sample.tenant_admin "create"
          = Ok (VObj out) ∧
     out !! "tenants"
     = Some (VArr [obj1 "tenant" (VStr "t1"); obj1 "tenant" (VStr "t2")]) ∧
     out !! "roles" = Some (VArr [VStr "tenant-admin"])) ∧
  (∃ out, Users.beforeChange Sample.payload Sample.tenant_admin "create"
          = Ok (VObj out) ∧
     out !! "tenants"
     = Some (VArr [obj1 "tenant" (VStr "t1"); obj1 "tenant" (VStr "t2")]) ∧
     out !! "roles" = Some (VArr [VStr "super-admin"])) ∧
  Users.beforeChange Sample.payload VUndefined "create" = Ok Sample.payload ∧
  Users.beforeChange Sample.payload Sample.super_admin "create"
  = Ok Sample.payload.
Proof.
  split; [|split; [|split]].
  - destruct (beforeChange_inherits_tenants (VObj ∅) Sample.tenant_admin)
      as (H & _).
    destruct (H [VStr "t1"; VStr "t2"]) as (out & Hout & Ht & Hr & _);
      [reflexivity..|].
    exists out. split; [exact Hout|]. split; [exact Ht|].
    apply Hr. reflexivity.
  - destruct (beforeChange_inherits_tenants Sample.payload Sample.tenant_admin)
      as (H & _).
    destruct (H [VStr "t1"; VStr "t2"]) as (out & Hout & Ht & _ & Hr);
      [reflexivity..|].
    exists out. split; [exact Hout|]. split; [exact Ht|].
    apply Hr. reflexivity.
  - destruct (beforeChange_inherits_tenants Sample.payload VUndefined)
      as (_ & H & _).
    apply H. reflexivity.
  - destruct (beforeChange_inherits_tenants Sample.payload Sample.super_admin)
      as (_ & _ & H).
    apply H. reflexivity.
Defined.

(** The creation example in full: an empty payload becomes exactly
    [{tenants: [{tenant: 't1'}, {tenant: 't2'}], roles: ['tenant-admin']}]. *)
Example beforeChange_empty_payload :
  Users.beforeChange (VObj ∅) Sample.tenant_admin "create"
  = Ok (VObj (<["tenants" := VArr [obj1 "tenant" (VStr "t1");
                                   obj1 "tenant" (VStr "t2")]]>
               {[ "roles" := VArr [VStr "tenant-admin"] ]})).
Proof. vm_compute. reflexivity. Qed.

Lemma beforeChange_frame_witness :
  (∃ out, Users.beforeChange Sample.payload Sample.tenant_admin "create"
          = Ok (VObj out) ∧
          out !! "email" = Some (VStr "new@example.org")) ∧
  Users.beforeChange Sample.payload Sample.tenant_admin "update"
  = Ok Sample.payload.
Proof.
  destruct (beforeChange_frame Sample.payload Sample.tenant_admin) as (Hc & Hu).
  split.
  - apply (Hc [VStr "t1"; VStr "t2"] "email");
      [reflexivity | reflexivity | reflexivity | discriminate | discriminate].
  - apply Hu. discriminate.
Defined.

(** ** Resolver *)

Lemma truthy_string s : truthy (VStr s) = true ↔ s ≠ EmptyString.
Proof.
  simpl. rewrite negb_true_iff. apply String.eqb_neq.
Qed.

Lemma str_or_absent_or_else a b :
  str_or_absent a = true → str_or_absent b = true →
  str_or_absent (or_else a b) = true.
Proof. unfold or_else. by destruct (truthy a). Qed.

Lemma tenantId_typed entry :
  typed_entry entry = true → str_or_absent (Auth.tenantId entry) = true.
Proof.
  destruct entry as [| | | | |l|o]; try done.
  unfold typed_entry, typed_ref, Auth.tenantId. simpl.
  intros [[Hid Hval]%andb_true_iff Href]%andb_true_iff.
  destruct (o !! "tenant") as [ref|] eqn:Ht; simpl.
  - destruct ref as [| | | | |l|r]; simpl in *;
      [by apply str_or_absent_or_else.. | done | done |].
    apply andb_true_iff in Href as [? ?]. by apply str_or_absent_or_else.
  - by apply str_or_absent_or_else.
Qed.

Lemma resolve_strings (ss : list string) :
  filter (λ v, truthy v) (Auth.tenantId <$> (VStr <$> ss))
  = VStr <$> filter (λ s, s ≠ EmptyString) ss.
Proof.
  induction ss as [|s ss IH]; [done|].
  rewrite !fmap_cons, !filter_cons. change (Auth.tenantId (VStr s)) with (VStr s).
  pose proof (truthy_string s) as Hs.
  destruct (decide (truthy (VStr s))) as [Ht|Ht], (decide (s ≠ EmptyString)) as [Hn|Hn].
  - by rewrite fmap_cons, IH.
  - apply Is_true_true, Hs in Ht. done.
  - exfalso. apply Ht, Is_true_true. by apply Hs.
  - done.
Qed.

(** C5. On the membership list
    [["t1", {id: "t2"}, {value: "t3"}, {tenant: "t4"}, {tenant: {id: "t5"}},
      {tenant: {value: "t6"}}, {}, {tenant: {}}]]
    the resolver answers with exactly t1 ... t6.  An entry that resolves to
    a falsy value (missing, empty string, null) is dropped: the call does
    not raise, and the answer is the one obtained without the entry.  An
    absent user and an absent membership collection both give the empty
    answer. *)
Theorem resolver_example :
  Auth.getTenantIds (obj1 "tenants" (VArr Sample.memberships))
  = Ok [VStr "t1"; VStr "t2"; VStr "t3"; VStr "t4"; VStr "t5"; VStr "t6"] ∧
  Auth.getTenantIds (obj1 "tenants" (VArr Sample.empty_memberships)) = Ok [] ∧
  (∀ (o : gmap string value) before entry after,
     truthy (Auth.tenantId entry) = false →
     Auth.getTenantIds (VObj (<["tenants" := VArr (before ++ entry :: after)]> o))
     = Auth.getTenantIds (VObj (<["tenants" := VArr (before ++ after)]> o))) ∧
  (∀ user, nullish user = true → Auth.getTenantIds user = Ok []) ∧
  (∀ user, nullish (get_opt user "tenants") = true →
           Auth.getTenantIds user = Ok []).
Proof.
  split; [by vm_compute|]. split; [by vm_compute|]. split; [|split].
  - intros o before entry after Hf.
    assert (∀ l, get_opt (VObj (<["tenants" := VArr l]> o)) "tenants" = VArr l)
      as Hget
      by (intros l; rewrite get_opt_object; unfold prop;
          by rewrite lookup_insert_eq).
    rewrite !(getTenantIds_array _ _ (Hget _)).
    f_equal. rewrite !fmap_app, fmap_cons, !filter_app, filter_cons.
    destruct (decide _) as [Ht|_]; [|done].
    apply Is_true_true in Ht. congruence.
  - intros user Hn. apply getTenantIds_falsy. by destruct user.
  - intros user Hn. apply getTenantIds_no_tenants.
    by destruct (get_opt user "tenants").
Qed.

Lemma resolver_example_witness :
  Auth.getTenantIds
    (VObj (<["tenants" := VArr ([VStr "t1"] ++ obj1 "id" VNull :: [VStr "t2"])]> ∅))
  = Auth.getTenantIds
      (VObj (<["tenants" := VArr ([VStr "t1"] ++ [VStr "t2"])]> ∅)) ∧
  Auth.getTenantIds VUndefined = Ok [] ∧
  Auth.getTenantIds Sample.bare_user = Ok [].
Proof.
  destruct resolver_example as (_ & _ & Hdrop & Habsent & Hnone).
  split; [|split].
  - apply Hdrop. reflexivity.
  - apply Habsent. reflexivity.
  - apply Hnone. reflexivity.
Defined.

(** C6, as the code has it.  Every element of the resolver's answer is
    truthy, so the answer holds no empty string (nor [null] or
    [undefined]); when the membership entries keep their identifiers as
    strings, every element is a non-empty string.  The answer is not a
    set: for every membership list it is the list of the entries'
    resolutions that are truthy, one element per resolving entry, in the
    order of the entries and as often as they occur; for a membership list
    of plain strings that is the non-empty ones. *)
Theorem resolver_output_nonempty (user : value) (ids : list value) :
  Auth.getTenantIds user = Ok ids →
  (∀ v, v ∈ ids → truthy v = true) ∧
  (VStr EmptyString ∉ ids) ∧
  (∀ tenants, get_opt user "tenants" = VArr tenants →
     Forall (λ e, typed_entry e = true) tenants →
     ∀ v, v ∈ ids → ∃ s, v = VStr s ∧ s ≠ EmptyString) ∧
  (∀ tenants, get_opt user "tenants" = VArr tenants →
     ids = filter (λ v, truthy v) (Auth.tenantId <$> tenants)) ∧
  (∀ ss : list string, get_opt user "tenants" = VArr (VStr <$> ss) →
     ids = VStr <$> filter (λ s, s ≠ EmptyString) ss).
Proof.
  intros Hids. split; [|split; [|split; [|split]]].
  - intros v. apply (getTenantIds_truthy _ _ _ Hids).
  - intros Hin. by apply (getTenantIds_truthy _ _ _ Hids) in Hin.
  - intros tenants Ht Hty v Hin.
    pose proof (getTenantIds_truthy _ _ _ Hids Hin) as Hv.
    rewrite (getTenantIds_array _ _ Ht) in Hids. injection Hids as <-.
    apply list_elem_of_filter in Hin as [_ Hin].
    apply list_elem_of_fmap in Hin as (e & -> & He).
    rewrite Forall_forall in Hty. apply Hty, tenantId_typed in He.
    destruct (Auth.tenantId e) as [| | | |s| |]; try done.
    exists s. split; [done|]. by apply truthy_string.
  - intros tenants Ht. rewrite (getTenantIds_array _ _ Ht) in Hids.
    by injection Hids as <-.
  - intros ss Ht. rewrite (getTenantIds_array _ _ Ht) in Hids.
    injection Hids as <-. apply resolve_strings.
Qed.

Lemma resolver_output_nonempty_witness :
  Auth.getTenantIds Sample.tenant_admin = Ok [VStr "t1"; VStr "t2"] ∧
  Forall (λ v, truthy v = true) [VStr "t1"; VStr "t2"] ∧
  (VStr EmptyString ∉ [VStr "t1"; VStr "t2"]) ∧
  [VStr "t1"; VStr "t2"]
  = filter (λ v, truthy v)
      (Auth.tenantId <$> [obj1 "tenant" (VStr "t1"); obj1 "tenant" (VStr "t2")]) ∧
  Auth.getTenantIds Sample.twice = Ok [VStr "t1"; VStr "t1"] ∧
  [VStr "t1"; VStr "t1"] = VStr <$> filter (λ s, s ≠ EmptyString) ["t1"; "t1"].
Proof.
  assert (Auth.getTenantIds Sample.tenant_admin = Ok [VStr "t1"; VStr "t2"])
    as Hadmin by reflexivity.
  assert (Auth.getTenantIds Sample.twice = Ok [VStr "t1"; VStr "t1"])
    as Htwice by reflexivity.
  destruct (resolver_output_nonempty _ _ Hadmin) as (H1 & H2 & _ & H4 & _).
  destruct (resolver_output_nonempty _ _ Htwice) as (_ & _ & _ & _ & H5).
  split; [exact Hadmin|]. split; [by apply Forall_forall|].
  split; [exact H2|]. split; [by apply H4|]. split; [exact Htwice|].
  by apply (H5 ["t1"; "t1"]).
Defined.

(** The resolver keeps repetitions: the same identifier listed twice is
    answered twice. *)
Lemma resolver_keeps_duplicates :
  Auth.getTenantIds Sample.twice = Ok [VStr "t1"; VStr "t1"] ∧
  ¬ (∀ user ids, Auth.getTenantIds user = Ok ids → NoDup ids).
Proof.
  split; [by vm_compute|].
  intros H. specialize (H Sample.twice _ eq_refl).
  apply NoDup_cons in H as [Hnin _]. apply Hnin. by left.
Qed.

(** ** The older role checks against the shared one *)

Lemma legacy_isSuperAdmin_same user :
  LegacyTenants.isSuperAdmin user = LegacyUsers.isSuperAdmin user.
Proof. reflexivity. Qed.

Lemma legacy_isSuperAdmin_total user :
  ∃ b, LegacyTenants.isSuperAdmin user = Ok b.
Proof.
  unfold LegacyTenants.isSuperAdmin, get_opt, get.
  destruct (nullish user) eqn:Hn; simpl; [eauto|].
  destruct (prop user "roles"); simpl; eauto.
Qed.

(** C8, as the code has it.  On every user whose [roles] is absent or an
    array, the shared role check and the two older per-collection checks
    return the same boolean; the two older checks agree on every input and
    never raise. *)
Theorem role_checks_agree (user : value) :
  (nullish (get_opt user "roles") || is_array (get_opt user "roles") = true →
   ∃ b, Auth.isSuperAdmin user = Ok b ∧
        LegacyTenants.isSuperAdmin user = Ok b ∧
        LegacyUsers.isSuperAdmin user = Ok b) ∧
  LegacyTenants.isSuperAdmin user = LegacyUsers.isSuperAdmin user ∧
  (∃ b, LegacyTenants.isSuperAdmin user = Ok b).
Proof.
  split; [|split; [reflexivity | apply legacy_isSuperAdmin_total]].
  unfold Auth.isSuperAdmin, LegacyTenants.isSuperAdmin,
    LegacyUsers.isSuperAdmin, includes_opt, get_opt, get.
  destruct (nullish user) eqn:Hn; simpl; [eauto|].
  destruct (prop user "roles"); simpl; try discriminate; eauto.
Qed.

Lemma role_checks_agree_witness :
  ∃ b, Auth.isSuperAdmin Sample.super_admin = Ok b ∧
       LegacyTenants.isSuperAdmin Sample.super_admin = Ok b ∧
       LegacyUsers.isSuperAdmin Sample.super_admin = Ok b.
Proof.
  destruct (role_checks_agree Sample.super_admin) as (H & _).
  apply H. reflexivity.
Defined.

(** A [roles] that is a string, not an array: the shared check searches the
    string and answers [true], the older checks see no array and answer
    [false]. *)
Lemma role_checks_differ :
  Auth.isSuperAdmin Sample.roles_as_string = Ok true ∧
  LegacyTenants.isSuperAdmin Sample.roles_as_string = Ok false ∧
  LegacyUsers.isSuperAdmin Sample.roles_as_string = Ok false ∧
  ¬ (∀ user, Auth.isSuperAdmin user = LegacyTenants.isSuperAdmin user).
Proof.
  repeat split; try (by vm_compute).
  intros H. specialize (H Sample.roles_as_string). vm_compute in H.
  discriminate.
Qed.

(** ** Totality and the absent user *)

Lemma get_opt_non_nullish user k :
  nullish user = false → get_opt user k = prop user k.
Proof. unfold get_opt. by intros ->. Qed.

Lemma truthy_non_nullish v : truthy v = true → nullish v = false.
Proof. by destruct v. Qed.

Lemma includes_opt_total recv k :
  nullish recv || is_array recv = true → ∃ v, includes_opt recv k = Ok v.
Proof. unfold includes_opt. destruct recv; simpl; try discriminate; eauto. Qed.

Lemma isSuperAdmin_total user :
  conforms user = true → ∃ b, Auth.isSuperAdmin user = Ok b.
Proof.
  unfold conforms. intros [Hr _]%andb_true_iff. unfold Auth.isSuperAdmin.
  destruct (includes_opt_total _ "super-admin" Hr) as [v ->]. simpl. eauto.
Qed.

Lemma getTenantIds_total user :
  conforms user = true → ∃ ids, Auth.getTenantIds user = Ok ids.
Proof.
  unfold conforms. intros [_ Ht]%andb_true_iff.
  destruct (get_opt user "tenants") as [| | | | |l|] eqn:Hg;
    try discriminate.
  - rewrite getTenantIds_no_tenants; [eauto | by rewrite Hg].
  - rewrite getTenantIds_no_tenants; [eauto | by rewrite Hg].
  - rewrite (getTenantIds_array _ l Hg). eauto.
Qed.

(** C9, as the code has it.  On every user that keeps the [AuthUser]
    shape ([roles] and [tenants] each absent or an array, with entries of
    any form) every access predicate returns an answer and does not raise;
    and on an absent user every predicate answers [false]. *)
Theorem predicates_total_on_conforming (user : value) :
  (conforms user = true →
   ∀ p, p ∈ access_predicates → ∃ r, p user = Ok r) ∧
  (nullish user = true →
   ∀ p, p ∈ access_predicates → p user = Ok (VBool false)).
Proof.
  split.
  - intros Hc p Hp.
    destruct (isSuperAdmin_total _ Hc) as [sa Hsa].
    destruct (getTenantIds_total _ Hc) as [ids Hids].
    assert (truthy user = true →
            ∃ v, includes_opt (prop user "roles") "tenant-admin" = Ok v)
      as Hinc.
    { intros Ht%truthy_non_nullish. apply includes_opt_total.
      rewrite <- (get_opt_non_nullish _ _ Ht).
      unfold conforms in Hc. by apply andb_true_iff in Hc as [? _]. }
    each_predicate Hp; unfold_access; rewrite ?Hsa, ?Hids; simpl;
      destruct (truthy user) eqn:Ht; simpl; rewrite ?Hsa, ?Hids; simpl;
      destruct sa; simpl; rewrite ?Hids; simpl; eauto;
      try (destruct (Hinc eq_refl) as [v ->]; simpl; eauto);
      try (destruct ids as [|? [|? ?]]; simpl; eauto).
  - intros Hn p Hp.
    each_predicate Hp; destruct user; try discriminate; reflexivity.
Qed.

Lemma predicates_total_on_conforming_witness :
  Forall (λ p : value → res value, ∃ r, p Sample.tenant_admin = Ok r)
         access_predicates ∧
  Forall (λ p : value → res value, ∃ r, p Sample.bare_user = Ok r)
         access_predicates ∧
  Forall (λ p : value → res value, p VUndefined = Ok (VBool false))
         access_predicates.
Proof.
  split; [|split]; apply Forall_forall.
  - destruct (predicates_total_on_conforming Sample.tenant_admin) as (H & _).
    apply H. reflexivity.
  - destruct (predicates_total_on_conforming Sample.bare_user) as (H & _).
    apply H. reflexivity.
  - destruct (predicates_total_on_conforming VUndefined) as (_ & H).
    apply H. reflexivity.
Defined.

(** A [roles] that is a number, or a [tenants] that is one identifier
    instead of a list: the method call on it raises. *)
Lemma predicates_raise_off_shape :
  Tenants.access_create Sample.roles_as_number = TypeError ∧
  Users.access_read Sample.roles_as_number = TypeError ∧
  Tenants.access_read Sample.tenants_as_string = TypeError ∧
  Users.access_read Sample.tenants_as_string = TypeError ∧
  ¬ (∀ p user, p ∈ access_predicates → ∃ r, p user = Ok r).
Proof.
  repeat split; try (by vm_compute).
  intros H.
  destruct (H Tenants.access_create Sample.roles_as_number) as [r Hr].
  - apply elem_of_cons. by left.
  - vm_compute in Hr. discriminate.
Qed.

(** * Further properties of the access layer *)

(** ** Where the role check and the resolver raise *)

Lemma append_nil_l (s : string) : EmptyString +:+ s = s.
Proof. reflexivity. Qed.
Lemma append_cons c (s t : string) : String c s +:+ t = String c (s +:+ t).
Proof. reflexivity. Qed.

Lemma prefix_app (sub s : string) :
  String.prefix sub s = true ↔ ∃ post, s = sub +:+ post.
Proof.
  revert s. induction sub as [|c sub IH]; intros s.
  - split; [intros _; by exists s | by destruct s].
  - destruct s as [|d s].
    + split; [done | intros [post [=]]].
    + change (String.prefix (String c sub) (String d s))
        with (if Ascii.ascii_dec c d then String.prefix sub s else false).
      destruct (Ascii.ascii_dec c d) as [->|Hne].
      * rewrite IH. split; intros [post Hp]; exists post.
        -- rewrite append_cons. congruence.
        -- rewrite append_cons in Hp. congruence.
      * split; [done | intros [post Hp]]. rewrite append_cons in Hp. congruence.
Qed.

Lemma str_includes_app (sub s : string) :
  str_includes sub s = true ↔ ∃ pre post, s = pre +:+ sub +:+ post.
Proof.
  induction s as [|c s IH].
  - change (str_includes sub EmptyString)
      with (String.prefix sub EmptyString || false).
    rewrite orb_true_iff, prefix_app. split.
    + intros [[post ->] | ?]; [by exists EmptyString, post | done].
    + intros (pre & post & H). left. exists post.
      destruct pre; [done | discriminate].
  - change (str_includes sub (String c s))
      with (String.prefix sub (String c s) || str_includes sub s).
    rewrite orb_true_iff, prefix_app, IH. split.
    + intros [[post ->] | (pre & post & ->)].
      * by exists EmptyString, post.
      * by exists (String c pre), post.
    + intros (pre & post & H). destruct pre as [|d pre].
      * left. by exists post.
      * right. rewrite append_cons in H. injection H as -> ->. by exists pre, post.
Qed.

(** X1. The shared role check raises exactly when [roles] is present and
    is neither an array nor a string; in every other case it answers. *)
Theorem isSuperAdmin_raises_iff (user : value) :
  Auth.isSuperAdmin user = TypeError ↔
  nullish (get_opt user "roles") = false ∧
  is_array (get_opt user "roles") = false ∧
  is_string (get_opt user "roles") = false.
Proof.
  unfold Auth.isSuperAdmin, includes_opt.
  destruct (get_opt user "roles"); simpl; split;
    try done; try (by intros (? & ? & ?)).
Qed.

Lemma isSuperAdmin_raises_iff_witness :
  Auth.isSuperAdmin Sample.roles_as_number = TypeError.
Proof. apply isSuperAdmin_raises_iff. repeat split. Defined.

(** X2. The shared role check answers [true] exactly when [roles] is an
    array that holds the string [super-admin], or a string that has
    [super-admin] somewhere inside it. *)
Theorem isSuperAdmin_true_iff (user : value) :
  Auth.isSuperAdmin user = Ok true ↔
  (∃ roles, get_opt user "roles" = VArr roles ∧ VStr "super-admin" ∈ roles) ∨
  (∃ pre post, get_opt user "roles" = VStr (pre +:+ "super-admin" +:+ post)).
Proof.
  unfold Auth.isSuperAdmin, includes_opt.
  destruct (get_opt user "roles") as [| | | |s|l|]; simpl;
    try (split; [done | by intros [(? & ? & ?) | (? & ? & ?)]]).
  - split.
    + intros [= H].
      apply str_includes_app in H as (pre & post & ->). right. eauto.
    + intros [(? & ? & ?) | (pre & post & [= ->])]; [done|].
      assert (str_includes "super-admin" (pre +:+ "super-admin" +:+ post) = true)
        as -> by (apply str_includes_app; eauto).
      done.
  - split.
    + intros [= H]. left. exists l. split; [done|]. by apply existsb_is_str.
    + intros [(roles & [= <-] & Hin) | (? & ? & ?)]; [|done].
      f_equal. by apply existsb_is_str.
Qed.

Lemma isSuperAdmin_true_iff_witness :
  Auth.isSuperAdmin (obj1 "roles" (VStr ("not-" +:+ "super-admin" +:+ "-at-all")))
  = Ok true.
Proof. apply isSuperAdmin_true_iff. right. by exists "not-", "-at-all". Defined.

(** X3. The resolver raises exactly when [tenants] is truthy and is not an
    array; a falsy [tenants] (absent, [null], [0], the empty string) gives
    the empty answer instead. *)
Theorem getTenantIds_raises_iff (user : value) :
  (Auth.getTenantIds user = TypeError ↔
   truthy (get_opt user "tenants") = true ∧
   is_array (get_opt user "tenants") = false) ∧
  (truthy (get_opt user "tenants") = false → Auth.getTenantIds user = Ok []).
Proof.
  unfold Auth.getTenantIds.
  destruct (truthy (get_opt user "tenants")) eqn:Ht; simpl.
  - split; [|done]. rewrite get_opt_non_nullish.
    + destruct (prop user "tenants"); simpl; split; try done;
        by intros [_ ?].
    + destruct user; try done.
  - split; [|done]. split; [done | by intros [? _]].
Qed.

Lemma getTenantIds_raises_iff_witness :
  Auth.getTenantIds Sample.tenants_as_string = TypeError ∧
  Auth.getTenantIds (obj1 "tenants" (VNum 0)) = Ok [] ∧
  Auth.getTenantIds (obj1 "tenants" (VStr EmptyString)) = Ok [] ∧
  Auth.getTenantIds (obj1 "tenants" VNull) = Ok [] ∧
  Auth.getTenantIds Sample.bare_user = Ok [].
Proof.
  split; [|split; [|split; [|split]]].
  - apply getTenantIds_raises_iff. by split.
  - apply getTenantIds_raises_iff. reflexivity.
  - apply getTenantIds_raises_iff. reflexivity.
  - apply getTenantIds_raises_iff. reflexivity.
  - apply getTenantIds_raises_iff. reflexivity.
Defined.

(** ** The resolver, entry by entry *)

Lemma tenantId_object_tenant (o : gmap string value) (r : value) :
  o !! "tenant" = Some r →
  Auth.tenantId (VObj o)
  = if is_string r then r
    else if is_object r then or_else (prop r "id") (prop r "value")
    else or_else (prop (VObj o) "id") (prop (VObj o) "value").
Proof.
  intros Hr. unfold Auth.tenantId. simpl. by rewrite Hr.
Qed.

Lemma tenantId_object_plain (o : gmap string value) :
  o !! "tenant" = None →
  Auth.tenantId (VObj o) = or_else (prop (VObj o) "id") (prop (VObj o) "value").
Proof.
  intros Hr. unfold Auth.tenantId. simpl. by rewrite Hr.
Qed.

(** X4. What sits under the [tenant] key of a membership entry decides
    alone.  With a string or an object there, no other field of the entry
    is looked at, so an entry whose [tenant] object carries no identifier
    resolves to nothing even when the entry has an [id] of its own.  With
    anything else there ([null], a number, a boolean) the entry resolves
    as if it had no [tenant] key. *)
Theorem tenant_key_decides (o : gmap string value) (r : value) :
  o !! "tenant" = Some r →
  (is_string r || is_object r = true →
   ∀ k v, k ≠ "tenant" →
     Auth.tenantId (VObj (<[k := v]> o)) = Auth.tenantId (VObj o)) ∧
  (is_string r || is_object r = false →
   Auth.tenantId (VObj o) = Auth.tenantId (VObj (delete "tenant" o))).
Proof.
  intros Hr. split.
  - intros Hso k v Hk.
    rewrite (tenantId_object_tenant o r Hr).
    rewrite (tenantId_object_tenant (<[k := v]> o) r)
      by (by rewrite lookup_insert_ne).
    destruct (is_string r); [done|]. simpl in Hso. by rewrite Hso.
  - intros Hso. apply orb_false_iff in Hso as [Hs Ho].
    rewrite (tenantId_object_tenant o r Hr), Hs, Ho.
    rewrite tenantId_object_plain by apply lookup_delete_eq.
    unfold prop. by rewrite !lookup_delete_ne.
Qed.

Lemma tenant_key_decides_witness :
  Auth.tenantId (VObj (<["id" := VStr "t7"]> {[ "tenant" := VObj ∅ ]}))
  = Auth.tenantId (obj1 "tenant" (VObj ∅)) ∧
  Auth.tenantId (VObj (<["id" := VStr "t7"]> {[ "tenant" := VNull ]}))
  = Auth.tenantId (VObj (delete "tenant"
                           (<["id" := VStr "t7"]> {[ "tenant" := VNull ]}))).
Proof.
  split.
  - apply (tenant_key_decides {[ "tenant" := VObj ∅ ]} (VObj ∅));
      [reflexivity | reflexivity | discriminate].
  - apply (tenant_key_decides
             (<["id" := VStr "t7"]> {[ "tenant" := VNull ]}) VNull);
      reflexivity.
Defined.

Lemma getTenantIds_of_list (o : gmap string value) (l : list value) :
  Auth.getTenantIds (VObj (<["tenants" := VArr l]> o))
  = Ok (filter (λ v, truthy v) (Auth.tenantId <$> l)).
Proof.
  apply getTenantIds_array. rewrite get_opt_object. unfold prop.
  by rewrite lookup_insert_eq.
Qed.

(** X5. The order of the membership entries does not matter to the set of
    resolved identifiers, and adding entries never removes one: reordering
    the entries reorders the answer, and every identifier resolved from a
    list is still resolved from any longer list that contains it. *)
Theorem resolver_order_and_growth (o : gmap string value)
    (l1 l2 more : list value) :
  l1 ≡ₚ l2 →
  ∃ ids1 ids2 ids3,
    Auth.getTenantIds (VObj (<["tenants" := VArr l1]> o)) = Ok ids1 ∧
    Auth.getTenantIds (VObj (<["tenants" := VArr l2]> o)) = Ok ids2 ∧
    Auth.getTenantIds (VObj (<["tenants" := VArr (l1 ++ more)]> o)) = Ok ids3 ∧
    ids1 ≡ₚ ids2 ∧ ids1 ⊆ ids3.
Proof.
  intros Hp. do 3 eexists. rewrite !getTenantIds_of_list.
  split; [done|]. split; [done|]. split; [done|]. split.
  - by rewrite Hp.
  - rewrite fmap_app, filter_app. intros x Hx. apply elem_of_app. by left.
Qed.

Lemma resolver_order_and_growth_witness :
  ∃ ids1 ids2 ids3,
    Auth.getTenantIds
      (VObj (<["tenants" := VArr [VStr "t1"; obj1 "id" (VStr "t2")]]> ∅))
    = Ok ids1 ∧
    Auth.getTenantIds
      (VObj (<["tenants" := VArr [obj1 "id" (VStr "t2"); VStr "t1"]]> ∅))
    = Ok ids2 ∧
    Auth.getTenantIds
      (VObj (<["tenants" :=
                 VArr ([VStr "t1"; obj1 "id" (VStr "t2")] ++ [VStr "t3"])]> ∅))
    = Ok ids3 ∧
    ids1 ≡ₚ ids2 ∧ ids1 ⊆ ids3.
Proof.
  apply (resolver_order_and_growth ∅ [VStr "t1"; obj1 "id" (VStr "t2")]
           [obj1 "id" (VStr "t2"); VStr "t1"] [VStr "t3"]).
  apply Permutation_swap.
Defined.

(** ** Resolving what was resolved *)

Lemma resolved_are_strings user tenants ids :
  get_opt user "tenants" = VArr tenants →
  Forall (λ e, typed_entry e = true) tenants →
  Auth.getTenantIds user = Ok ids →
  Forall (λ v, ∃ s, v = VStr s ∧ s ≠ EmptyString) ids.
Proof.
  intros Ht Hty Hids. apply Forall_forall. intros v Hin.
  pose proof (getTenantIds_truthy _ _ _ Hids Hin) as Hv.
  rewrite (getTenantIds_array _ _ Ht) in Hids. injection Hids as <-.
  apply list_elem_of_filter in Hin as [_ Hin].
  apply list_elem_of_fmap in Hin as (e & -> & He).
  rewrite Forall_forall in Hty. apply Hty, tenantId_typed in He.
  destruct (Auth.tenantId e) as [| | | |s| |]; try done.
  exists s. split; [done|]. by apply truthy_string.
Qed.

Lemma resolve_resolved (wrap : value → value) (ids : list value) :
  (∀ s, Auth.tenantId (wrap (VStr s)) = VStr s) →
  Forall (λ v, ∃ s, v = VStr s ∧ s ≠ EmptyString) ids →
  filter (λ v, truthy v) (Auth.tenantId <$> (wrap <$> ids)) = ids.
Proof.
  intros Hw. induction 1 as [|v ids (s & -> & Hs) _ IH]; [done|].
  rewrite !fmap_cons, Hw, filter_cons, IH.
  destruct (decide _) as [|Hn]; [done|].
  exfalso. apply Hn, Is_true_true. by apply truthy_string.
Qed.

(** X6. Resolving is idempotent on well-typed memberships: when the
    entries keep their identifiers as strings, the resolved list, put back
    as the membership list of a user, resolves to itself. *)
Theorem resolver_idempotent (user : value) (tenants ids : list value) :
  get_opt user "tenants" = VArr tenants →
  Forall (λ e, typed_entry e = true) tenants →
  Auth.getTenantIds user = Ok ids →
  Auth.getTenantIds (obj1 "tenants" (VArr ids)) = Ok ids.
Proof.
  intros Ht Hty Hids.
  pose proof (resolved_are_strings _ _ _ Ht Hty Hids) as Hstr.
  rewrite (getTenantIds_array _ ids) by done. f_equal.
  rewrite <- (resolve_resolved (λ v, v) ids) at 2 by done.
  by rewrite list_fmap_id.
Qed.

Lemma resolver_idempotent_witness :
  Auth.getTenantIds (obj1 "tenants" (VArr [VStr "t1"; VStr "t2"]))
  = Ok [VStr "t1"; VStr "t2"].
Proof.
  apply (resolver_idempotent Sample.tenant_admin
           [obj1 "tenant" (VStr "t1"); obj1 "tenant" (VStr "t2")]).
  - reflexivity.
  - repeat constructor.
  - reflexivity.
Defined.

(** X7. A user created through the hook resolves to the creator's
    tenants: on create by an authenticated requester who is not a
    super-admin and whose membership entries keep their identifiers as
    strings, the resolver applied to the hook's output gives the
    requester's resolved identifiers, whatever the payload held. *)
Theorem created_user_inherits_resolution
    (data requester : value) (tenants ids : list value) :
  truthy requester = true →
  Auth.isSuperAdmin requester = Ok false →
  get_opt requester "tenants" = VArr tenants →
  Forall (λ e, typed_entry e = true) tenants →
  Auth.getTenantIds requester = Ok ids →
  ∃ out, Users.beforeChange data requester "create" = Ok out ∧
         Auth.getTenantIds out = Ok ids.
Proof.
  intros Htr Hsa Ht Hty Hids.
  pose proof (resolved_are_strings _ _ _ Ht Hty Hids) as Hstr.
  eexists. split; [by apply beforeChange_create|].
  rewrite (getTenantIds_array _ ((λ id, obj1 "tenant" id) <$> ids)).
  - f_equal. by apply resolve_resolved.
  - rewrite get_opt_object. unfold prop.
    rewrite lookup_insert_ne by done. by rewrite lookup_insert_eq.
Qed.

Lemma created_user_inherits_resolution_witness :
  ∃ out, Users.beforeChange Sample.payload Sample.tenant_admin "create" = Ok out ∧
         Auth.getTenantIds out = Ok [VStr "t1"; VStr "t2"].
Proof.
  apply (created_user_inherits_resolution Sample.payload Sample.tenant_admin
           [obj1 "tenant" (VStr "t1"); obj1 "tenant" (VStr "t2")]).
  - reflexivity.
  - reflexivity.
  - reflexivity.
  - repeat constructor.
  - reflexivity.
Defined.

(** ** More on the creation hook *)

Lemma coalesce_non_nullish a b :
  nullish b = false → nullish (coalesce a b) = false.
Proof. unfold coalesce. by destruct (nullish a) eqn:Ha. Qed.

(** X8. The hook is idempotent: feeding its output back in, with the same
    requester and operation, returns that output unchanged. *)
Theorem beforeChange_idempotent
    (data requester out : value) (operation : string) :
  Users.beforeChange data requester operation = Ok out →
  Users.beforeChange out requester operation = Ok out.
Proof.
  unfold Users.beforeChange.
  destruct (negb (String.eqb operation "create")); [by intros [= ->]|].
  destruct (negb (truthy requester)); [by intros [= ->]|].
  destruct (Auth.isSuperAdmin requester) as [[]|]; simpl;
    [by intros [= ->] | | done].
  destruct (Auth.getTenantIds requester) as [ids|]; simpl; [|done].
  intros [= <-]. do 2 f_equal.
  set (roles := coalesce (get_opt data "roles") (VArr [VStr "tenant-admin"])).
  set (m := <["roles" := roles]>
              (<["tenants" := Users.memberships ids]> (spread data))).
  assert (get_opt (VObj m) "roles" = roles) as ->.
  { rewrite get_opt_object. unfold prop, m. by rewrite lookup_insert_eq. }
  assert (coalesce roles (VArr [VStr "tenant-admin"]) = roles) as ->.
  { unfold coalesce at 1. unfold roles.
    by rewrite (coalesce_non_nullish _ (VArr [VStr "tenant-admin"])). }
  change (spread (VObj m)) with m.
  rewrite (insert_id m "tenants").
  - apply insert_id. unfold m. by rewrite lookup_insert_eq.
  - unfold m. rewrite lookup_insert_ne by done. by rewrite lookup_insert_eq.
Qed.

Lemma beforeChange_idempotent_witness :
  Users.beforeChange
    (VObj (<["roles" := VArr [VStr "tenant-admin"]]>
          (<["tenants" := Users.memberships [VStr "t1"; VStr "t2"]]> ∅)))
    Sample.tenant_admin "create"
  = Ok (VObj (<["roles" := VArr [VStr "tenant-admin"]]>
             (<["tenants" := Users.memberships [VStr "t1"; VStr "t2"]]> ∅))).
Proof.
  apply (beforeChange_idempotent (VObj ∅)). reflexivity.
Defined.

(** X9. The hook does not touch the roles a payload brings.  On create by
    an authenticated requester who is not a super-admin, a payload that
    carries [roles] yields a record on which the role check answers as it
    does on the payload itself, so a payload asking for [super-admin]
    yields a super-admin; only a payload without [roles] yields a record
    that is not a super-admin. *)
Theorem beforeChange_roles_pass_through (data requester : value)
    (ids : list value) :
  truthy requester = true →
  Auth.isSuperAdmin requester = Ok false →
  Auth.getTenantIds requester = Ok ids →
  ∃ out, Users.beforeChange data requester "create" = Ok out ∧
    (nullish (get_opt data "roles") = false →
     Auth.isSuperAdmin out = Auth.isSuperAdmin data) ∧
    (nullish (get_opt data "roles") = true →
     Auth.isSuperAdmin out = Ok false).
Proof.
  intros Ht Hsa Hids. eexists. split; [by apply beforeChange_create|].
  unfold Auth.isSuperAdmin at 1 3. rewrite get_opt_object. unfold prop.
  rewrite lookup_insert_eq. simpl. unfold coalesce.
  split; intros ->; reflexivity.
Qed.

Lemma beforeChange_roles_pass_through_witness :
  ∃ out, Users.beforeChange Sample.payload Sample.tenant_admin "create" = Ok out ∧
         Auth.isSuperAdmin out = Ok true.
Proof.
  destruct (beforeChange_roles_pass_through Sample.payload Sample.tenant_admin
              [VStr "t1"; VStr "t2"]) as (out & Hout & Hkeep & _);
    [reflexivity..|].
  exists out. split; [exact Hout|]. rewrite Hkeep; reflexivity.
Defined.

(** ** Who gets an unrestricted answer *)

Ltac each_of list_def H :=
  unfold list_def in H;
  repeat (apply elem_of_cons in H as [-> | H]);
  try (by apply not_elem_of_nil in H).

(** X10. Apart from the predicates that open to every authenticated user
    or to tenant-admins, no predicate answers [true] to anyone but a
    super-admin: the Tenants predicates, User read, update and delete, and
    the field update guards answer [true] only when the role check does. *)
Theorem unrestricted_only_for_super_admin (user : value) :
  ∀ p, p ∈ guarded_predicates →
       p user = Ok (VBool true) → Auth.isSuperAdmin user = Ok true.
Proof.
  intros p Hp.
  each_of guarded_predicates Hp; unfold_access;
    destruct (truthy user) eqn:Ht; simpl;
    try (rewrite (isSuperAdmin_falsy user Ht));
    destruct (Auth.isSuperAdmin user) as [[]|]; simpl; try done;
    destruct (Auth.getTenantIds user) as [[|? [|? ?]]|]; simpl; done.
Qed.

Lemma unrestricted_only_for_super_admin_witness :
  Auth.isSuperAdmin Sample.super_admin = Ok true.
Proof.
  apply (unrestricted_only_for_super_admin _ Users.access_read).
  - unfold guarded_predicates. do 5 apply list_elem_of_further.
    apply elem_of_cons. by left.
  - reflexivity.
Defined.

(** X11. User create: for a user whose [roles] is absent or an array the
    predicate always answers with a boolean, and the answer is [true]
    exactly when the user is authenticated and the role set holds
    [super-admin] or [tenant-admin]. *)
Theorem user_create_access (user : value) :
  nullish (get_opt user "roles") || is_array (get_opt user "roles") = true →
  ∃ b, Users.access_create user = Ok (VBool b) ∧
       (b = true ↔
        truthy user = true ∧
        ∃ roles, prop user "roles" = VArr roles ∧
                 (VStr "super-admin" ∈ roles ∨ VStr "tenant-admin" ∈ roles)).
Proof.
  intros Hr. unfold Users.access_create.
  destruct (truthy user) eqn:Ht; simpl.
  2:{ exists false. split; [done|]. split; [done | by intros [? _]]. }
  rewrite (get_opt_non_nullish _ _ (truthy_non_nullish _ Ht)) in Hr.
  unfold Auth.isSuperAdmin.
  rewrite (get_opt_non_nullish _ _ (truthy_non_nullish _ Ht)).
  destruct (prop user "roles") as [| | | | |roles|] eqn:Hp; try discriminate.
  - exists false. split; [done|]. split; [done | by intros [_ (? & ? & _)]].
  - exists false. split; [done|]. split; [done | by intros [_ (? & ? & _)]].
  - simpl. destruct (existsb (is_str "super-admin") roles) eqn:Hsa; simpl.
    + exists true. split; [done|]. split; [|done]. intros _. split; [done|].
      exists roles. split; [done|]. left. by apply existsb_is_str.
    + exists (existsb (is_str "tenant-admin") roles). split; [done|].
      rewrite existsb_is_str. split.
      * intros Hta. split; [done|]. exists roles. by eauto.
      * intros [_ (roles' & [= <-] & [Hin | Hin])]; [|done].
        apply existsb_is_str in Hin. congruence.
Qed.

Lemma user_create_access_witness :
  ∃ b, Users.access_create Sample.bare_user = Ok (VBool b) ∧
       (b = true ↔
        truthy Sample.bare_user = true ∧
        ∃ roles, prop Sample.bare_user "roles" = VArr roles ∧
                 (VStr "super-admin" ∈ roles ∨ VStr "tenant-admin" ∈ roles)).
Proof. apply user_create_access. reflexivity. Defined.

(** X12. Read extends update on Users: whenever the read predicate
    answers, the update predicate answers too, and the read answer is
    either the update answer itself or the [or] of the update answer with
    the tenant-membership constraint on a non-empty resolved list. *)
Theorem user_read_extends_update (user r : value) :
  Users.access_read user = Ok r →
  ∃ u, Users.access_update user = Ok u ∧
       (r = u ∨
        ∃ ids, ids ≠ [] ∧ Auth.getTenantIds user = Ok ids ∧
               r = obj1 "or"
                     (VArr [u; obj1 "tenants.tenant" (obj1 "in" (VArr ids))])).
Proof.
  unfold Users.access_read, Users.access_update, Users.tenantScopedAccess,
    Users.selfOrSuperAccess.
  destruct (truthy user); simpl; [|intros [= <-]; eauto].
  destruct (Auth.isSuperAdmin user) as [[]|]; simpl;
    [intros [= <-]; eauto | | done].
  destruct (Auth.getTenantIds user) as [[|id ids]|]; simpl; [| |done].
  - intros [= <-]; eauto.
  - intros [= <-]. eexists. split; [done|]. right.
    exists (id :: ids). by repeat split.
Qed.

Lemma user_read_extends_update_witness :
  ∃ u, Users.access_update Sample.tenant_admin = Ok u ∧
       (obj1 "or"
          (VArr [ obj1 "id" (obj1 "equals" (VStr "u1"));
                  obj1 "tenants.tenant"
                       (obj1 "in" (VArr [VStr "t1"; VStr "t2"])) ]) = u ∨
        ∃ ids, ids ≠ [] ∧ Auth.getTenantIds Sample.tenant_admin = Ok ids ∧
               obj1 "or"
                 (VArr [ obj1 "id" (obj1 "equals" (VStr "u1"));
                         obj1 "tenants.tenant"
                              (obj1 "in" (VArr [VStr "t1"; VStr "t2"])) ])
               = obj1 "or"
                   (VArr [u; obj1 "tenants.tenant" (obj1 "in" (VArr ids))])).
Proof. apply user_read_extends_update. reflexivity. Defined.

(** ** What the predicates read *)

Lemma prop_insert_ne (o : gmap string value) k k' v :
  k ≠ k' → prop (VObj (<[k := v]> o)) k' = prop (VObj o) k'.
Proof. intros Hk. unfold prop. by rewrite lookup_insert_ne. Qed.

Lemma isSuperAdmin_insert_ne (o : gmap string value) k v :
  k ≠ "roles" →
  Auth.isSuperAdmin (VObj (<[k := v]> o)) = Auth.isSuperAdmin (VObj o).
Proof.
  intros Hk. unfold Auth.isSuperAdmin.
  by rewrite !get_opt_object, prop_insert_ne.
Qed.

Lemma getTenantIds_insert_ne (o : gmap string value) k v :
  k ≠ "tenants" →
  Auth.getTenantIds (VObj (<[k := v]> o)) = Auth.getTenantIds (VObj o).
Proof.
  intros Hk. unfold Auth.getTenantIds.
  by rewrite !get_opt_object, prop_insert_ne.
Qed.

(** X13. The predicates read three fields of the user and nothing else:
    setting any field other than [roles], [tenants] and [id] on a user
    record changes no predicate's answer. *)
Theorem predicates_read_three_fields (o : gmap string value)
    (k : string) (v : value) :
  k ≠ "roles" → k ≠ "tenants" → k ≠ "id" →
  ∀ p, p ∈ access_predicates → p (VObj (<[k := v]> o)) = p (VObj o).
Proof.
  intros Hr Ht Hi p Hp.
  each_predicate Hp; unfold_access;
    rewrite ?isSuperAdmin_insert_ne, ?getTenantIds_insert_ne,
      ?(prop_insert_ne o k "id"), ?(prop_insert_ne o k "roles") by done;
    reflexivity.
Qed.

Lemma predicates_read_three_fields_witness :
  Forall
    (λ p : value → res value,
       p (VObj (<["email" := VStr "a@example.org"]> {[ "id" := VStr "u2" ]}))
       = p (VObj {[ "id" := VStr "u2" ]}))
    access_predicates.
Proof.
  apply Forall_forall.
  apply (predicates_read_three_fields {[ "id" := VStr "u2" ]}); discriminate.
Defined.

(** ** The earlier collections against the current ones *)

Lemma legacy_isSuperAdmin_on_shape user :
  nullish (get_opt user "roles") || is_array (get_opt user "roles") = true →
  LegacyTenants.isSuperAdmin user = Auth.isSuperAdmin user.
Proof.
  unfold Auth.isSuperAdmin, LegacyTenants.isSuperAdmin, includes_opt,
    get_opt, get.
  destruct (nullish user); simpl; [done|].
  destruct (prop user "roles"); simpl; try discriminate; done.
Qed.

(** X14. The predicates of the earlier collections never raise and never
    answer with a filter: on every input, of any shape, each answers with a
    boolean.  On a user whose [roles] is absent or an array, the earlier
    Tenants create, update and delete and the earlier roles-field update
    guard answer exactly as their current counterparts. *)
Theorem legacy_predicates_boolean (user : value) :
  (∀ p, p ∈ legacy_predicates → ∃ b, p user = Ok (VBool b)) ∧
  (nullish (get_opt user "roles") || is_array (get_opt user "roles") = true →
   LegacyCollections.tenants_access_create user = Tenants.access_create user ∧
   LegacyCollections.tenants_access_update user = Tenants.access_update user ∧
   LegacyCollections.tenants_access_delete user = Tenants.access_delete user ∧
   LegacyCollections.users_roles_access_update user
   = Users.roles_access_update user).
Proof.
  split.
  - intros p Hp. destruct (legacy_isSuperAdmin_total user) as [b Hb].
    each_of legacy_predicates Hp;
      unfold LegacyCollections.tenants_access_create,
        LegacyCollections.tenants_access_update,
        LegacyCollections.tenants_access_delete,
        LegacyCollections.tenants_access_read,
        LegacyCollections.users_roles_access_create,
        LegacyCollections.users_roles_access_update,
        authenticated, as_access;
      rewrite <- ?(legacy_isSuperAdmin_same user), ?Hb; simpl; eauto.
  - intros Hr.
    unfold LegacyCollections.tenants_access_create,
      LegacyCollections.tenants_access_update,
      LegacyCollections.tenants_access_delete,
      LegacyCollections.users_roles_access_update,
      Tenants.access_create, Tenants.access_update, Tenants.access_delete,
      Users.roles_access_update.
    rewrite <- (legacy_isSuperAdmin_same user).
    by rewrite (legacy_isSuperAdmin_on_shape user Hr).
Qed.

Lemma legacy_predicates_boolean_witness :
  Forall (λ p : value → res value,
            ∃ b, p Sample.roles_as_number = Ok (VBool b))
         legacy_predicates ∧
  LegacyCollections.tenants_access_create Sample.super_admin
  = Tenants.access_create Sample.super_admin.
Proof.
  split.
  - apply Forall_forall.
    apply (legacy_predicates_boolean Sample.roles_as_number).
  - apply (legacy_predicates_boolean Sample.super_admin). reflexivity.
Defined.

(** X15. Tenant read only became narrower.  Whenever the current Tenant
    read predicate answers anything but [false], the earlier one answers
    [true]; and an authenticated user who is not a super-admin and resolves
    to no tenant is granted by the earlier predicate and denied by the
    current one. *)
Theorem tenant_read_narrowed (user : value) :
  (∀ r, Tenants.access_read user = Ok r → r ≠ VBool false →
        LegacyCollections.tenants_access_read user = Ok (VBool true)) ∧
  (truthy user = true → Auth.isSuperAdmin user = Ok false →
   Auth.getTenantIds user = Ok [] →
   LegacyCollections.tenants_access_read user = Ok (VBool true) ∧
   Tenants.access_read user = Ok (VBool false)).
Proof.
  unfold LegacyCollections.tenants_access_read, authenticated,
    Tenants.access_read, Tenants.readTenantAccess.
  split.
  - intros r. destruct (truthy user) eqn:Ht; [done|].
    rewrite (isSuperAdmin_falsy _ Ht), (getTenantIds_falsy _ Ht). simpl.
    by intros [= <-].
  - by intros -> -> ->.
Qed.

Lemma tenant_read_narrowed_witness :
  LegacyCollections.tenants_access_read Sample.bare_user = Ok (VBool true) ∧
  Tenants.access_read Sample.bare_user = Ok (VBool false).
Proof.
  destruct (tenant_read_narrowed Sample.bare_user) as (_ & H).
  apply H; reflexivity.
Defined.

(** ** Falsy users *)

(** X16. A user value that is falsy in any way, not only absent ([false],
    [0], the empty string as well as [undefined] and [null]), is denied by
    every predicate of the current collections, and the creation hook
    returns the payload as it came. *)
Theorem falsy_user_denied (user : value) :
  truthy user = false →
  (∀ p, p ∈ access_predicates → p user = Ok (VBool false)) ∧
  (∀ data operation, Users.beforeChange data user operation = Ok data).
Proof.
  intros Ht. split.
  - intros p Hp.
    each_predicate Hp; unfold_access;
      rewrite ?Ht, ?(isSuperAdmin_falsy _ Ht), ?(getTenantIds_falsy _ Ht);
      reflexivity.
  - intros data operation. unfold Users.beforeChange. rewrite Ht. simpl.
    by destruct (negb (String.eqb operation "create")).
Qed.

Lemma falsy_user_denied_witness :
  Forall (λ p : value → res value, p (VNum 0) = Ok (VBool false))
         access_predicates.
Proof.
  apply Forall_forall. apply (falsy_user_denied (VNum 0)). reflexivity.
Defined.

(** ** Where the predicates raise *)

(** X17. The scoped predicates raise only through the role check or the
    resolver, and the role check comes first.  Tenant read raises exactly
    when the role check raises, or answers [false] and the resolver raises;
    User read raises exactly when, in addition, the user is truthy; User
    update and User create raise exactly when the user is truthy and the
    role check raises.  So a malformed [tenants] goes unnoticed for a
    super-admin and for a falsy user. *)
Theorem scoped_predicates_raise_iff (user : value) :
  (Tenants.access_read user = TypeError ↔
   Auth.isSuperAdmin user = TypeError ∨
   (Auth.isSuperAdmin user = Ok false ∧ Auth.getTenantIds user = TypeError)) ∧
  (Users.access_read user = TypeError ↔
   truthy user = true ∧
   (Auth.isSuperAdmin user = TypeError ∨
    (Auth.isSuperAdmin user = Ok false ∧
     Auth.getTenantIds user = TypeError))) ∧
  (Users.access_update user = TypeError ↔
   truthy user = true ∧ Auth.isSuperAdmin user = TypeError) ∧
  (Users.access_create user = TypeError ↔
   truthy user = true ∧ Auth.isSuperAdmin user = TypeError).
Proof.
  unfold_access. split; [|split; [|split]]; split.
  - destruct (Auth.isSuperAdmin user) as [[]|]; simpl; [done | | by left].
    destruct (Auth.getTenantIds user) as [[|? ?]|]; simpl; try done.
    intros _. by right.
  - intros [-> | [-> ->]]; done.
  - destruct (truthy user); simpl; [|done].
    intros H. split; [done|]. revert H.
    destruct (Auth.isSuperAdmin user) as [[]|]; simpl; [done | | by left].
    destruct (Auth.getTenantIds user) as [[|? [|? ?]]|]; simpl; try done.
    intros _. by right.
  - intros [-> [-> | [-> ->]]]; done.
  - destruct (truthy user); simpl; [|done].
    by destruct (Auth.isSuperAdmin user) as [[]|].
  - by intros [-> ->].
  - destruct (truthy user) eqn:Ht; simpl; [|done].
    intros H. split; [done|]. revert H.
    unfold Auth.isSuperAdmin.
    rewrite (get_opt_non_nullish _ _ (truthy_non_nullish _ Ht)).
    unfold includes_opt.
    destruct (prop user "roles") as [| | | |s|l|]; simpl; try done.
    + by destruct (str_includes "super-admin" s).
    + by destruct (existsb (is_str "super-admin") l).
  - by intros [-> ->].
Qed.

Lemma scoped_predicates_raise_iff_witness :
  Tenants.access_read Sample.tenants_as_string = TypeError ∧
  Users.access_update Sample.roles_as_number = TypeError.
Proof.
  split.
  - apply scoped_predicates_raise_iff. right. by split.
  - apply scoped_predicates_raise_iff. by split.
Defined.
